(** * tf2rl/policies/tfp_categorical_actor.py

    A shallow embedding of the two policy classes of the file,
    [CategoricalActor] and [CategoricalActorCritic], together with the part
    of the Python object model (instance attributes, method resolution,
    exceptions) and of the two wrapped libraries (Keras [Dense] layers, the
    [Categorical] distribution) that the methods of the file go through.

    Conventions of the embedding:
    - tensor entries are real numbers ([R]); rounding of 32-bit floats is
      not modelled;
    - a batch of states is a list of state vectors (rank-2 tensor, one row
      per state), so [state_shape] is the one-entry shape [(n,)], given by
      its entry [n];
    - a method is a computation in the monad [M]: it reads and writes the
      receiver [self] and the random generator, and either returns a value
      or raises an exception. *)

From Stdlib Require Import Reals Lra Lia.
From stdpp Require Import base gmap strings list.

Local Open Scope string_scope.

(** ** Vectors and matrices of reals *)

Definition vector := list R.
Definition matrix := list vector.

Definition Rsum (v : vector) : R := fold_right Rplus 0%R v.

Definition dot (x y : vector) : R :=
  Rsum (zip_with Rmult x y).

(** Column [j] of a matrix given by its rows. *)
Definition column (j : nat) (m : matrix) : vector :=
  map (fun row => nth j row 0%R) m.

(** [tf.nn.softmax] along the last axis. *)
Definition softmax (v : vector) : vector :=
  map (fun x => (exp x / Rsum (map exp v))%R) v.

(** [tf.nn.log_softmax] at index [k]. *)
Definition log_softmax_at (v : vector) (k : nat) : R :=
  (nth k v 0 - ln (Rsum (map exp v)))%R.

(** ** Exceptions and results *)

Inductive exn : Type :=
| AttributeError (attr : string)
| NotImplementedError (msg : string)
| TypeError (msg : string)
| ValueError (msg : string)
| KeyError (key : string)
| InvalidArgumentError (msg : string).

Inductive result (A : Type) : Type :=
| Ok (a : A)
| Raise (e : exn).
Arguments Ok {A} a.
Arguments Raise {A} e.

Definition returns {A} (r : result A) : Prop := exists a, r = Ok a.
Definition raises {A} (r : result A) : Prop := exists e, r = Raise e.

(** ** Keras: activations and the parameters of a Dense layer *)

Inductive Activation : Type :=
| relu | linear | tanh_act | sigmoid | softmax_act.

(** [tf.keras.activations.get]: an activation is named by a string; an
    unknown name is a [ValueError]. *)
Definition activations_get (name : string) : result Activation :=
  if String.eqb name "relu" then Ok relu
  else if String.eqb name "linear" then Ok linear
  else if String.eqb name "tanh" then Ok tanh_act
  else if String.eqb name "sigmoid" then Ok sigmoid
  else if String.eqb name "softmax" then Ok softmax_act
  else Raise (ValueError "Unknown activation function").

Definition apply_activation (a : Activation) (v : vector) : vector :=
  match a with
  | relu => map (Rmax 0) v
  | linear => v
  | tanh_act => map tanh v
  | sigmoid => map (fun x => (1 / (1 + exp (- x)))%R) v
  | softmax_act => softmax v
  end.

(** A Dense layer: its width, its activation, and, once built, its kernel
    (one row per input feature, [units] entries per row) and its bias. *)
Record Dense : Type := mkDense {
  units : nat;
  activation : Activation;
  weights : option (matrix * vector)
}.

(** [activation(x . kernel + bias)] for one input row. *)
Definition dense_row (l_units : nat) (act : Activation)
    (kernel : matrix) (bias : vector) (x : vector) : vector :=
  apply_activation act
    (map (fun j => (dot x (column j kernel) + nth j bias 0)%R) (seq 0 l_units)).

(** ** Python objects *)

Inductive class : Type :=
| CategoricalActor
| CategoricalActorCritic
| keras_Model.

Global Instance class_eq_dec : EqDecision class.
Proof. solve_decision. Defined.

(** Values held by instance attributes of the two classes, and bound
    methods as returned by an attribute read that resolves in a class. *)
Inductive value : Type :=
| VInt (n : nat)
| VStr (s : string)
| VDense (l : Dense)
| VLayers (ls : list Dense)
| VMethod (c : class) (name : string).

Record object : Type := mkObject {
  cls : class;
  attrs : gmap string value
}.

(** Method resolution order. *)
Definition mro (c : class) : list class :=
  match c with
  | CategoricalActorCritic => [CategoricalActorCritic; CategoricalActor; keras_Model]
  | CategoricalActor => [CategoricalActor; keras_Model]
  | keras_Model => [keras_Model]
  end.

(** Names defined in the body of each class.  For the framework's base
    class the list holds the members of its public interface; it has no
    member named [_compute_feature], [prob] or [dist]. *)
Definition defines (c : class) : list string :=
  match c with
  | CategoricalActor =>
      ["__init__"; "_compute_dist"; "compute_prob"; "call";
       "compute_entropy"; "compute_log_probs"]
  | CategoricalActorCritic => ["__init__"; "call"]
  | keras_Model =>
      ["__init__"; "__call__"; "call"; "build"; "compile"; "fit"; "evaluate";
       "predict"; "summary"; "layers"; "name"; "weights"; "variables";
       "trainable_variables"; "get_weights"; "set_weights"; "save_weights";
       "load_weights"; "losses"; "metrics"; "add_loss"; "add_weight";
       "get_layer"; "dtype"; "trainable"; "submodules"]
  end.

Definition resolve (c : class) (name : string) : option class :=
  find (fun k => bool_decide (name ∈ defines k)) (mro c).

(** ** The random generator

    A stream of uniform draws from [[0, 1)]. *)
Record U01 : Type := mkU01 {
  uval :> R;
  uval_range : (0 <= uval < 1)%R
}.

Definition stream := nat -> U01.

(** ** The monad of methods: state (receiver and generator) and exceptions *)

Record world : Type := mkWorld {
  self : object;
  rng : stream
}.

Definition M (A : Type) : Type := world -> result (A * world).

Definition ret {A} (a : A) : M A := fun w => Ok (a, w).

Definition bind {A B} (m : M A) (k : A -> M B) : M B :=
  fun w => match m w with
           | Ok (a, w') => k a w'
           | Raise e => Raise e
           end.

Definition raise {A} (e : exn) : M A := fun _ => Raise e.

Notation "x <- m ;; k" := (bind m (fun x => k))
  (at level 100, m at next level, right associativity).

(** An exception or value computed without side effect. *)
Definition lift {A} (r : result A) : M A := fun w =>
  match r with
  | Ok a => Ok (a, w)
  | Raise e => Raise e
  end.

(** [self.name]: the instance dictionary first, then the classes of the
    method resolution order; otherwise an [AttributeError]. *)
Definition getattr (name : string) : M value := fun w =>
  match attrs (self w) !! name with
  | Some v => Ok (v, w)
  | None =>
      match resolve (cls (self w)) name with
      | Some c => Ok (VMethod c name, w)
      | None => Raise (AttributeError name)
      end
  end.

(** [self.name = v]. *)
Definition setattr (name : string) (v : value) : M unit := fun w =>
  Ok (tt, mkWorld (mkObject (cls (self w)) (<[name := v]> (attrs (self w)))) (rng w)).

(** One uniform draw. *)
Definition draw : M U01 := fun w =>
  Ok (rng w 0, mkWorld (self w) (fun i => rng w (S i))).

(** ** Keras: building and calling a Dense layer *)

(** [n] draws from [tf.random.uniform(minval=-limit, maxval=limit)]. *)
Fixpoint random_uniform (n : nat) (limit : R) : M vector :=
  match n with
  | O => ret []
  | S n' =>
      u <- draw ;;
      rest <- random_uniform n' limit ;;
      ret ((uval u * (limit - - limit) + - limit)%R :: rest)
  end.

Fixpoint random_uniform_matrix (rows cols : nat) (limit : R) : M matrix :=
  match rows with
  | O => ret []
  | S rows' =>
      r <- random_uniform cols limit ;;
      rest <- random_uniform_matrix rows' cols limit ;;
      ret (r :: rest)
  end.

(** The default kernel initializer: uniform on [[-limit, limit]] with
    [limit = sqrt(3 * scale)], [scale = 1 / max(1, (fan_in + fan_out) / 2)]. *)
Definition glorot_limit (fan_in fan_out : nat) : R :=
  sqrt (3 * (1 / Rmax 1 ((INR fan_in + INR fan_out) / 2))).

Definition glorot_uniform (fan_in fan_out : nat) : M matrix :=
  random_uniform_matrix fan_in fan_out (glorot_limit fan_in fan_out).

(** [Dense(units, activation=name)]: the layer is created without weights. *)
Definition Dense_new (n : nat) (name : string) : M Dense :=
  a <- lift (activations_get name) ;;
  ret (mkDense n a None).

(** Last dimension of a batch of rows (of the first row; the constructor of
    the policy, the only caller of an unbuilt layer, passes one row). *)
Definition last_dim (x : matrix) : nat :=
  match x with
  | [] => 0
  | r :: _ => length r
  end.

(** First call of a layer: the kernel is drawn for the input width seen,
    the bias is zero. *)
Definition Dense_build (l : Dense) (x : matrix) : M Dense :=
  match weights l with
  | Some _ => ret l
  | None =>
      kernel <- glorot_uniform (last_dim x) (units l) ;;
      ret (mkDense (units l) (activation l) (Some (kernel, repeat 0%R (units l))))
  end.

(** [layer(x)]: builds the layer if needed, checks the width of the input
    against the kernel, and applies the layer to every row.  The layer is
    returned with the outputs, since the call may have built it. *)
Definition Dense_call (l : Dense) (x : matrix) : M (Dense * matrix) :=
  l' <- Dense_build l x ;;
  match weights l' with
  | Some (kernel, bias) =>
      if forallb (fun r => Nat.eqb (length r) (length kernel)) x
      then ret (l', map (dense_row (units l') (activation l') kernel bias) x)
      else raise (ValueError "Input is incompatible with the layer")
  | None => raise (ValueError "The layer has no weights")
  end.

(** [np.zeros(shape=(1,)+state_shape)] for [state_shape = (n,)]. *)
Definition np_zeros (batch n : nat) : matrix :=
  repeat (repeat 0%R n) batch.

(** ** The probability library: the Categorical distribution *)

(** A batch of categorical distributions, one per row of [logits]. *)
Record Categorical : Type := mkCategorical {
  logits : matrix
}.

(** [Categorical(logits=None, probs=None)]: exactly one of the two has to
    be given; the first positional argument is [logits]. *)
Definition Categorical_new (logits_arg probs_arg : option matrix)
    : M Categorical :=
  match logits_arg, probs_arg with
  | Some l, None => ret (mkCategorical l)
  | None, Some p => ret (mkCategorical (map (map ln) p))
  | _, _ => raise (ValueError "Must pass probs or logits, but not both")
  end.

(** Inverse of the cumulative sums of the weights [ws]: the first index
    whose cumulative weight exceeds [t]. *)
Fixpoint inv_cdf (ws : vector) (t : R) : nat :=
  match ws with
  | [] => 0
  | w :: ws' => if Rlt_dec t w then 0 else S (inv_cdf ws' (t - w))
  end.

Definition sample_row (row : vector) : M nat :=
  match row with
  | [] => raise (InvalidArgumentError "num_classes should be positive")
  | _ =>
      u <- draw ;;
      ret (inv_cdf (map exp row) (uval u * Rsum (map exp row)))
  end.

(** [dist.sample()]: one class index per row. *)
Fixpoint sample_rows (rows : matrix) : M (list nat) :=
  match rows with
  | [] => ret []
  | row :: rows' =>
      a <- sample_row row ;;
      rest <- sample_rows rows' ;;
      ret (a :: rest)
  end.

Definition Categorical_sample (d : Categorical) : M (list nat) :=
  sample_rows (logits d).

(** [dist.mean()]: the library does not implement the mean of a categorical
    distribution. *)
Definition Categorical_mean (d : Categorical) : M (list nat) :=
  raise (NotImplementedError "mean is not implemented: Categorical").

(** [dist.log_prob(value)], one class index per row. *)
Fixpoint log_prob_rows (rows : matrix) (value : list nat) : result vector :=
  match rows, value with
  | [], [] => Ok []
  | row :: rows', k :: value' =>
      if Nat.ltb k (length row) then
        match log_prob_rows rows' value' with
        | Ok rest => Ok (log_softmax_at row k :: rest)
        | Raise e => Raise e
        end
      else Raise (InvalidArgumentError "label value is outside the valid range")
  | _, _ => Raise (ValueError "Incompatible shapes")
  end.

Definition Categorical_log_prob (d : Categorical) (value : list nat) : M vector :=
  lift (log_prob_rows (logits d) value).

(** [dist.prob(value)] is the exponential of [dist.log_prob(value)]. *)
Definition Categorical_prob (d : Categorical) (value : list nat) : M vector :=
  lp <- Categorical_log_prob d value ;;
  ret (map exp lp).

(** [dist.entropy()]. *)
Definition Categorical_entropy (d : Categorical) : M vector :=
  ret (map (fun row =>
              (- Rsum (map (fun k => nth k (softmax row) 0 * log_softmax_at row k)
                           (seq 0 (length row))))%R)
           (logits d)).

(** Tensors of any rank, for the rank tests of [compute_log_probs]. *)
Local Unset Elimination Schemes.
Inductive tensor : Type :=
| Scalar (x : R)
| Stack (ts : list tensor).
Local Set Elimination Schemes.

Definition tensor_of_vector (v : vector) : tensor := Stack (map Scalar v).
Definition tensor_of_matrix (m : matrix) : tensor := Stack (map tensor_of_vector m).

(** Integer tensors of rank 0 and 1 (class indices). *)
Inductive itensor : Type :=
| IScalar (k : nat)
| IVector (ks : list nat).

Fixpoint tf_rank (t : tensor) : nat :=
  match t with
  | Scalar _ => 0
  | Stack ts =>
      match ts with
      | [] => 1
      | t' :: _ => S (tf_rank t')
      end
  end.

(** [tf.expand_dims(t, axis=0)]. *)
Definition tf_expand_dims (t : tensor) : tensor := Stack [t].

(** [tf.squeeze] of a vector of indices: a one-entry vector becomes a
    scalar. *)
Definition tf_squeeze (ks : list nat) : itensor :=
  match ks with
  | [k] => IScalar k
  | _ => IVector ks
  end.

Definition one_hot_row (k depth : nat) : vector :=
  map (fun j => if Nat.eqb j k then 1%R else 0%R) (seq 0 depth).

(** [tf.one_hot(indices, depth)]. *)
Definition tf_one_hot (indices : itensor) (depth : nat) : tensor :=
  match indices with
  | IScalar k => tensor_of_vector (one_hot_row k depth)
  | IVector ks => tensor_of_matrix (map (fun k => one_hot_row k depth) ks)
  end.

(** [tf.cond] in eager mode runs the branch selected by the predicate. *)
Definition tf_cond {A} (pred : bool) (true_fn false_fn : M A) : M A :=
  if pred then true_fn else false_fn.

(** [tf.math.greater(a, b)] on ranks. *)
Definition tf_greater (a b : nat) : bool := Nat.ltb b a.

(** [dist[key]]: a distribution is indexed by batch positions (integers and
    slices); a string key is rejected. *)
Definition Categorical_getitem (d : Categorical) (key : string) : M tensor :=
  raise (TypeError "a distribution is not indexed by a string").

(** [dist[key] = v]: distributions do not support item assignment. *)
Definition Categorical_setitem (d : Categorical) (key : string) (v : tensor)
    : M Categorical :=
  raise (TypeError "object does not support item assignment").

(** [tf.math.argmax] of a row: the first index of a maximal entry. *)
Fixpoint argmax_from (best_i : nat) (best : R) (i : nat) (v : vector) : nat :=
  match v with
  | [] => best_i
  | x :: v' =>
      if Rlt_dec best x then argmax_from i x (S i) v'
      else argmax_from best_i best (S i) v'
  end.

Definition argmax_row (v : vector) : M nat :=
  match v with
  | [] => raise (InvalidArgumentError "Reduction axis is empty")
  | x :: v' => ret (argmax_from 0 x 1 v')
  end.

(** [tf.math.argmax(m, axis=1)]. *)
Fixpoint tf_argmax (m : matrix) : M (list nat) :=
  match m with
  | [] => ret []
  | row :: m' =>
      a <- argmax_row row ;;
      rest <- tf_argmax m' ;;
      ret (a :: rest)
  end.

(** [d[key]] for a Python dict. *)
Definition dict_getitem {A} (d : gmap string A) (key : string) : M A :=
  match d !! key with
  | Some v => ret v
  | None => raise (KeyError key)
  end.

(** [v.name(args)] for a value [v] read from an instance attribute.  It is
    used with the names [sample] and [log_likelihood] only, and no kind of
    value that these classes store (integer, string, layer, list of layers,
    bound method) has an attribute of either name: the lookup raises before
    the arguments are evaluated. *)
Definition call_method {A B} (v : value) (name : string) (args : M A) : M B :=
  raise (AttributeError name).

(** ** The classes of the file *)

(** Reads of [self.action_dim], [self.base_layers] and [self.out_prob],
    with the type each use expects. *)
Definition as_int (v : value) : M nat :=
  match v with
  | VInt n => ret n
  | _ => raise (TypeError "an integer is required")
  end.

Definition as_layers (v : value) : M (list Dense) :=
  match v with
  | VLayers ls => ret ls
  | _ => raise (TypeError "object is not iterable")
  end.

(** [for cur_layer in layers: features = cur_layer(features)].  The layers
    are returned too: a call may have built them. *)
Fixpoint call_layers (layers : list Dense) (features : matrix)
    : M (list Dense * matrix) :=
  match layers with
  | [] => ret ([], features)
  | cur_layer :: rest =>
      r <- Dense_call cur_layer features ;;
      rs <- call_layers rest (snd r) ;;
      ret (fst r :: fst rs, snd rs)
  end.

(** [self.name(x)] for an attribute that holds a layer.  The layer object
    is shared with the attribute, so the attribute sees the built layer.
    A bound method is callable as well, but [call_attr] is used with names
    that no class defines (see [defines]), so none is ever read here. *)
Definition call_attr (name : string) (x : matrix) : M matrix :=
  f <- getattr name ;;
  match f with
  | VDense l =>
      r <- Dense_call l x ;;
      _ <- setattr name (VDense (fst r)) ;;
      ret (snd r)
  | VMethod _ _ => raise (TypeError "unexpected bound method")
  | _ => raise (TypeError "object is not callable")
  end.

(** [CategoricalActor._compute_dist] *)
Definition CategoricalActor_compute_dist (states : matrix) : M Categorical :=
  let features := states in
  base_layers <- (v <- getattr "base_layers" ;; as_layers v) ;;
  r <- call_layers base_layers features ;;
  _ <- setattr "base_layers" (VLayers (fst r)) ;;
  let features := snd r in
  probs <- call_attr "out_prob" features ;;
  dist <- Categorical_new (Some probs) None ;;
  ret dist.

(** [self._compute_dist(states)]: the method is looked up on the receiver. *)
Definition self_compute_dist (states : matrix) : M Categorical :=
  m <- getattr "_compute_dist" ;;
  match m with
  | VMethod CategoricalActor _ => CategoricalActor_compute_dist states
  | _ => raise (TypeError "object is not callable")
  end.

(** [CategoricalActor.compute_prob] *)
Definition CategoricalActor_compute_prob (states : matrix) : M tensor :=
  dist <- self_compute_dist states ;;
  Categorical_getitem dist "prob".

(** [CategoricalActor.call] *)
Definition CategoricalActor_call (states : matrix) (test : bool)
    : M (list nat * vector) :=
  dist <- self_compute_dist states ;;
  action <- (if test then Categorical_mean dist else Categorical_sample dist) ;;
  log_prob <- Categorical_prob dist action ;;
  ret (action, log_prob).

(** [CategoricalActor.compute_entropy] *)
Definition CategoricalActor_compute_entropy (states : matrix) : M vector :=
  dist <- self_compute_dist states ;;
  Categorical_entropy dist.

(** [CategoricalActor.compute_log_probs] *)
Definition CategoricalActor_compute_log_probs (states : matrix)
    (actions : list nat) : M tensor :=
  param <- self_compute_dist states ;;
  let squeezed := tf_squeeze actions in
  depth <- (v <- getattr "action_dim" ;; as_int v) ;;
  let actions := tf_one_hot squeezed depth in
  p <- Categorical_getitem param "prob" ;;
  new_prob <- tf_cond (tf_greater (tf_rank actions) (tf_rank p))
                (p <- Categorical_getitem param "prob" ;; ret (tf_expand_dims p))
                (Categorical_getitem param "prob") ;;
  param <- Categorical_setitem param "prob" new_prob ;;
  p <- Categorical_getitem param "prob" ;;
  actions <- tf_cond (tf_greater (tf_rank p) (tf_rank actions))
               (ret (tf_expand_dims actions))
               (ret actions) ;;
  dist <- getattr "dist" ;;
  log_prob <- call_method dist "log_likelihood" (ret (actions, param)) ;;
  ret log_prob.

(** [CategoricalActor.compute_log_probs] with the two subscript operations
    of the distribution object left open: which exception a string
    subscript raises differs between versions of the probability library.
    With [Categorical_getitem] and [Categorical_setitem] it is
    [CategoricalActor_compute_log_probs]. *)
Definition CategoricalActor_compute_log_probs_with
    (getitem : Categorical -> string -> M tensor)
    (setitem : Categorical -> string -> tensor -> M Categorical)
    (states : matrix) (actions : list nat) : M tensor :=
  param <- self_compute_dist states ;;
  let squeezed := tf_squeeze actions in
  depth <- (v <- getattr "action_dim" ;; as_int v) ;;
  let actions := tf_one_hot squeezed depth in
  p <- getitem param "prob" ;;
  new_prob <- tf_cond (tf_greater (tf_rank actions) (tf_rank p))
                (p <- getitem param "prob" ;; ret (tf_expand_dims p))
                (getitem param "prob") ;;
  param <- setitem param "prob" new_prob ;;
  p <- getitem param "prob" ;;
  actions <- tf_cond (tf_greater (tf_rank p) (tf_rank actions))
               (ret (tf_expand_dims actions))
               (ret actions) ;;
  dist <- getattr "dist" ;;
  log_prob <- call_method dist "log_likelihood" (ret (actions, param)) ;;
  ret log_prob.

(** [CategoricalActorCritic.call] *)
Definition CategoricalActorCritic_call (states : matrix) (test : bool)
    : M (list nat * vector * matrix) :=
  features <- call_attr "_compute_feature" states ;;
  probs <- call_attr "prob" features ;;
  let param : gmap string matrix := {[ "prob" := probs ]} in
  action <- (if test then
               p <- dict_getitem param "prob" ;;
               tf_argmax p
             else
               dist <- getattr "dist" ;;
               call_method dist "sample" (ret param)) ;;
  log_prob <- (dist <- getattr "dist" ;;
               call_method dist "log_likelihood"
                 (depth <- (v <- getattr "action_dim" ;; as_int v) ;;
                  ret (tf_one_hot (IVector action) depth, param))) ;;
  v <- call_attr "v" features ;;
  ret (action, log_prob, v).

(** [tf.keras.Model.__init__(self, name=name)]; without a name the model
    is named after its class. *)
Definition keras_Model__init__ (name : option string) : M unit := fun w =>
  let default :=
    match cls (self w) with
    | CategoricalActor => "categorical_actor"
    | CategoricalActorCritic => "categorical_actor_critic"
    | keras_Model => "model"
    end in
  setattr "_name" (VStr (match name with Some n => n | None => default end)) w.

(** [self(inputs)]: [Model.__call__] runs the [call] method of the class of
    the receiver, with [test] at its default.  The outputs are dropped: the
    constructor, its only caller, does not use them. *)
Definition keras_Model__call__ (inputs : matrix) : M unit :=
  m <- getattr "call" ;;
  match m with
  | VMethod CategoricalActorCritic _ =>
      _ <- CategoricalActorCritic_call inputs false ;; ret tt
  | VMethod CategoricalActor _ =>
      _ <- CategoricalActor_call inputs false ;; ret tt
  | VMethod keras_Model _ =>
      raise (NotImplementedError "call")
  | _ => raise (TypeError "object is not callable")
  end.

(** [base_layers = []; for cur_layer_size in units: ...append(Dense(...))] *)
Fixpoint new_base_layers (units_arg : list nat) (hidden_activation : string)
    : M (list Dense) :=
  match units_arg with
  | [] => ret []
  | cur_layer_size :: rest =>
      cur_layer <- Dense_new cur_layer_size hidden_activation ;;
      base_layers <- new_base_layers rest hidden_activation ;;
      ret (cur_layer :: base_layers)
  end.

(** Constructor arguments, with the defaults of the source. *)
Record ctor_args : Type := mkArgs {
  state_shape : nat;
  action_dim : nat;
  units_arg : list nat;
  hidden_activation : string;
  name_arg : string
}.

Definition default_args (state_shape action_dim : nat) : ctor_args :=
  mkArgs state_shape action_dim [256; 256] "relu" "CategoricalActor".

(** [CategoricalActor.__init__] *)
Definition CategoricalActor__init__ (a : ctor_args) : M unit :=
  _ <- keras_Model__init__ (Some (name_arg a)) ;;
  _ <- setattr "action_dim" (VInt (action_dim a)) ;;
  base_layers <- new_base_layers (units_arg a) (hidden_activation a) ;;
  _ <- setattr "base_layers" (VLayers base_layers) ;;
  out_prob <- Dense_new (action_dim a) "softmax" ;;
  _ <- setattr "out_prob" (VDense out_prob) ;;
  keras_Model__call__ (np_zeros 1 (state_shape a)).

(** [CategoricalActorCritic.__init__] *)
Definition CategoricalActorCritic__init__ (a : ctor_args) : M unit :=
  _ <- keras_Model__init__ None ;;
  v <- Dense_new 1 "linear" ;;
  _ <- setattr "v" (VDense v) ;;
  CategoricalActor__init__ a.

(** Class instantiation: a fresh instance without attributes, then [__init__]. *)
Definition new_object (c : class) : object := mkObject c ∅.

Definition construct (c : class) (a : ctor_args) (g : stream) : result world :=
  let init :=
    match c with
    | CategoricalActor => CategoricalActor__init__ a
    | CategoricalActorCritic => CategoricalActorCritic__init__ a
    | keras_Model => keras_Model__init__ None
    end in
  match init (mkWorld (new_object c) g) with
  | Ok (_, w) => Ok w
  | Raise e => Raise e
  end.

(** ** Pure readings of the network, used to state the properties *)

(** A built layer applied to a batch: the value of [layer(x)], which for a
    built layer neither draws random numbers nor changes the layer. *)
Definition Dense_apply (l : Dense) (x : matrix) : result matrix :=
  match weights l with
  | Some (kernel, bias) =>
      if forallb (fun r => Nat.eqb (length r) (length kernel)) x
      then Ok (map (dense_row (units l) (activation l) kernel bias) x)
      else Raise (ValueError "Input is incompatible with the layer")
  | None => Raise (ValueError "The layer has no weights")
  end.

Fixpoint forward_layers (layers : list Dense) (features : matrix)
    : result matrix :=
  match layers with
  | [] => Ok features
  | l :: rest =>
      match Dense_apply l features with
      | Ok out => forward_layers rest out
      | Raise e => Raise e
      end
  end.

(** Hidden layers, then the output layer. *)
Definition network (base_layers : list Dense) (out_prob : Dense)
    (states : matrix) : result matrix :=
  match forward_layers base_layers states with
  | Ok features => Dense_apply out_prob features
  | Raise e => Raise e
  end.

(** The network as the specification words it: one state is fed through the
    hidden layers in order, then through the output layer. *)
Definition layer_row (l : Dense) (x : vector) : vector :=
  match weights l with
  | Some (kernel, bias) => dense_row (units l) (activation l) kernel bias x
  | None => x
  end.

Definition spec_forward (base_layers : list Dense) (out_prob : Dense)
    (state : vector) : vector :=
  layer_row out_prob (fold_left (fun features l => layer_row l features) base_layers state).

(** ** What an instance of [CategoricalActor] looks like *)

(** The layer is built for inputs of width [d_in]. *)
Definition built_for (d_in : nat) (l : Dense) : Prop :=
  exists kernel bias, weights l = Some (kernel, bias) /\ length kernel = d_in.

Fixpoint layers_built (d_in : nat) (ls : list Dense) : Prop :=
  match ls with
  | [] => True
  | l :: rest => built_for d_in l /\ layers_built (units l) rest
  end.

(** Width of the features that leave a stack of layers. *)
Definition out_width (d_in : nat) (ls : list Dense) : nat :=
  fold_left (fun _ l => units l) ls d_in.

(** The layers are those that the constructor arguments ask for, and all
    are built. *)
Definition architecture (a : ctor_args) (ls : list Dense) (lo : Dense) : Prop :=
  map units ls = units_arg a /\
  Forall (fun l => activations_get (hidden_activation a) = Ok (activation l)) ls /\
  layers_built (state_shape a) ls /\
  units lo = action_dim a /\
  activation lo = softmax_act /\
  built_for (out_width (state_shape a) ls) lo.

(** Names of the instance attributes that the constructor sets. *)
Definition actor_attrs : list string :=
  ["_name"; "action_dim"; "base_layers"; "out_prob"].

Record is_CategoricalActor (a : ctor_args) (o : object) : Prop := {
  inv_cls : cls o = CategoricalActor;
  inv_attrs : forall k, is_Some (attrs o !! k) -> k ∈ actor_attrs;
  inv_name : attrs o !! "_name" = Some (VStr (name_arg a));
  inv_action_dim : attrs o !! "action_dim" = Some (VInt (action_dim a));
  inv_positive : 0 < action_dim a;
  inv_network : exists ls lo,
      attrs o !! "base_layers" = Some (VLayers ls) /\
      attrs o !! "out_prob" = Some (VDense lo) /\
      architecture a ls lo
}.

(** A batch of states of the shape the actor was constructed for. *)
Definition valid_states (a : ctor_args) (states : matrix) : Prop :=
  Forall (fun s => length s = state_shape a) states.

(** Training assigns new values to the weights and keeps their shapes. *)
Definition same_shape (l l' : Dense) : Prop :=
  units l' = units l /\ activation l' = activation l /\
  match weights l, weights l' with
  | Some (k, _), Some (k', _) => length k' = length k
  | None, None => True
  | _, _ => False
  end.

Inductive trained (o : object) : object -> Prop :=
| trained_step ls lo ls' lo' :
    attrs o !! "base_layers" = Some (VLayers ls) ->
    attrs o !! "out_prob" = Some (VDense lo) ->
    Forall2 same_shape ls ls' ->
    same_shape lo lo' ->
    trained o (mkObject (cls o)
                 (<["out_prob" := VDense lo']>
                    (<["base_layers" := VLayers ls']> (attrs o)))).

(** The instances: what the constructor returns, and what training turns an
    instance into. *)
Inductive CategoricalActor_instance (a : ctor_args) : object -> Prop :=
| instance_constructed g w :
    construct CategoricalActor a g = Ok w ->
    CategoricalActor_instance a (self w)
| instance_trained o o' :
    CategoricalActor_instance a o ->
    trained o o' ->
    CategoricalActor_instance a o'.

(** The value or exception of a method call, without the final state. *)
Definition outcome {A} (r : result (A * world)) : result A :=
  match r with
  | Ok (a, _) => Ok a
  | Raise e => Raise e
  end.

(** ** A concrete actor

    One state feature, two actions, no hidden layer, all weights zero. *)
Definition args0 : ctor_args := mkArgs 1 2 [] "relu" "CategoricalActor".

Definition out_prob0 : Dense :=
  mkDense 2 softmax_act (Some ([[0%R; 0%R]], [0%R; 0%R])).

Definition actor0 : object :=
  mkObject CategoricalActor
    (<["out_prob" := VDense out_prob0]>
       (<["base_layers" := VLayers []]>
          (<["action_dim" := VInt 2]>
             (<["_name" := VStr "CategoricalActor"]> ∅)))).

Definition u_zero : U01.
Proof. refine (mkU01 0%R _). lra. Defined.


Definition g_zero : stream := fun _ => u_zero.

Definition states0 : matrix := [[0%R]].

(** The receiver that the constructor of [CategoricalActorCritic] passes to
    [call] for [args0]: every attribute of the two constructors is set, no
    layer is built. *)
Definition critic0 : object :=
  mkObject CategoricalActorCritic
    (<["out_prob" := VDense (mkDense 2 softmax_act None)]>
       (<["base_layers" := VLayers []]>
          (<["action_dim" := VInt 2]>
             (<["_name" := VStr "CategoricalActor"]>
                (<["v" := VDense (mkDense 1 linear None)]>
                   (<["_name" := VStr "categorical_actor_critic"]> ∅)))))).

(** ** Facts about sums, softmax and the inverse of the cumulative sums *)

Section Numeric.
Local Open Scope R_scope.

Lemma exp_gt_self (x : R) : x < exp x.
Proof.
  destruct (Req_dec x 0) as [->|Hx].
  - rewrite exp_0. lra.
  - pose proof (exp_ineq1 x Hx). lra.
Qed.

Lemma Rsum_exp_nonneg (v : vector) : 0 <= Rsum (map exp v).
Proof.
  induction v as [|x v IH]; simpl; [lra|].
  pose proof (exp_pos x). lra.
Qed.

Lemma Rsum_exp_pos (v : vector) : v <> [] -> 0 < Rsum (map exp v).
Proof.
  destruct v as [|x v]; [congruence|]. intros _. simpl.
  pose proof (exp_pos x). pose proof (Rsum_exp_nonneg v). lra.
Qed.

Lemma softmax_length (v : vector) : length (softmax v) = length v.
Proof. unfold softmax. apply length_map. Qed.

Lemma inv_cdf_lt (ws : vector) (t : R) :
  0 <= t < Rsum ws -> (inv_cdf ws t < length ws)%nat.
Proof.
  revert t. induction ws as [|w ws IH]; intros t [H0 H1]; simpl in *.
  - lra.
  - destruct (Rlt_dec t w) as [Hlt|Hge]; [lia|].
    assert (inv_cdf ws (t - w) < length ws)%nat by (apply IH; lra). lia.
Qed.

End Numeric.

(** ** Built layers *)

Lemma apply_activation_length act v : length (apply_activation act v) = length v.
Proof. destruct act; simpl; rewrite ?length_map; auto using softmax_length. Qed.

Lemma dense_row_length u act k b x : length (dense_row u act k b x) = u.
Proof. unfold dense_row. rewrite apply_activation_length, length_map. apply length_seq. Qed.

Lemma forallb_width (d : nat) (x : matrix) :
  Forall (fun r => length r = d) x ->
  forallb (fun r => Nat.eqb (length r) d) x = true.
Proof.
  induction 1 as [|r x Hr _ IH]; simpl; [reflexivity|].
  rewrite IH, Hr, Nat.eqb_refl. reflexivity.
Qed.

Lemma Dense_call_built l x w :
  weights l <> None ->
  Dense_call l x w =
    match Dense_apply l x with
    | Ok out => Ok ((l, out), w)
    | Raise e => Raise e
    end.
Proof.
  intros Hb. unfold Dense_call, Dense_apply, Dense_build, bind.
  destruct (weights l) as [[k b]|] eqn:E; [|congruence].
  unfold ret. rewrite E.
  destruct (forallb (fun r => Nat.eqb (length r) (length k)) x); reflexivity.
Qed.

Lemma call_layers_built ls x w :
  Forall (fun l => weights l <> None) ls ->
  call_layers ls x w =
    match forward_layers ls x with
    | Ok out => Ok ((ls, out), w)
    | Raise e => Raise e
    end.
Proof.
  intros Hb. revert x. induction Hb as [|l ls Hl _ IH]; intros x; simpl.
  - reflexivity.
  - unfold bind. rewrite (Dense_call_built l x w Hl).
    destruct (Dense_apply l x) as [out|e]; [|reflexivity].
    simpl. rewrite IH. destruct (forward_layers ls out); reflexivity.
Qed.

Lemma built_for_weights d l : built_for d l -> weights l <> None.
Proof. intros (k & b & H & _). congruence. Qed.

Lemma layers_built_weights d ls :
  layers_built d ls -> Forall (fun l => weights l <> None) ls.
Proof.
  revert d. induction ls as [|l ls IH]; intros d; simpl; [constructor|].
  intros [H1 H2]. constructor; eauto using built_for_weights.
Qed.

Lemma Dense_apply_valid d l x :
  built_for d l ->
  Forall (fun r => length r = d) x ->
  Dense_apply l x = Ok (map (layer_row l) x) /\
  Forall (fun r => length r = units l) (map (layer_row l) x).
Proof.
  intros (k & b & Hw & Hk) Hx. unfold Dense_apply, layer_row. rewrite Hw.
  subst d. rewrite (forallb_width _ _ Hx). split; [reflexivity|].
  apply Forall_map, Forall_forall. intros r _. apply dense_row_length.
Qed.

Lemma forward_layers_valid ls : forall d x,
  layers_built d ls ->
  Forall (fun r => length r = d) x ->
  forward_layers ls x =
    Ok (map (fun s => fold_left (fun f l => layer_row l f) ls s) x) /\
  Forall (fun r => length r = out_width d ls)
    (map (fun s => fold_left (fun f l => layer_row l f) ls s) x).
Proof.
  induction ls as [|l ls IH]; intros d x Hb Hx; simpl.
  - rewrite map_id. split; [reflexivity|exact Hx].
  - destruct Hb as [Hl Hls].
    destruct (Dense_apply_valid d l x Hl Hx) as [-> Hout].
    destruct (IH (units l) _ Hls Hout) as [-> Hw].
    rewrite map_map in Hw |- *. split; [reflexivity|exact Hw].
Qed.

Lemma network_valid a ls lo states :
  architecture a ls lo ->
  valid_states a states ->
  network ls lo states = Ok (map (spec_forward ls lo) states) /\
  Forall (fun p => length p = action_dim a) (map (spec_forward ls lo) states).
Proof.
  intros (_ & _ & Hb & Hu & _ & Hlo) Hs. unfold network.
  destruct (forward_layers_valid ls _ _ Hb Hs) as [-> Hw].
  destruct (Dense_apply_valid _ lo _ Hlo Hw) as [-> Hout].
  rewrite map_map in Hout |- *. rewrite <- Hu. split; [reflexivity|exact Hout].
Qed.

(** ** Attribute reads and writes *)

Ltac in_list := unfold actor_attrs; repeat constructor.

Ltac not_in_list :=
  let H := fresh in
  intros H; repeat (apply elem_of_cons in H as [H|H]; [discriminate H|]);
  inversion H.

Lemma resolve_undefined c name :
  name ∈ ["_compute_feature"; "prob"; "dist"] -> resolve c name = None.
Proof.
  intros H. repeat (apply elem_of_cons in H as [->|H]); [..|inversion H];
    destruct c; reflexivity.
Qed.

(** The attributes called as layers are not methods of any class. *)
Lemma call_attr_names_not_methods c :
  Forall (fun name => resolve c name = None)
    ["_compute_feature"; "prob"; "v"; "out_prob"].
Proof. destruct c; repeat constructor. Qed.

Lemma getattr_instance name v o g :
  attrs o !! name = Some v ->
  getattr name (mkWorld o g) = Ok (v, mkWorld o g).
Proof. intros H. unfold getattr. simpl. rewrite H. reflexivity. Qed.

Lemma getattr_method name c o g :
  attrs o !! name = None ->
  resolve (cls o) name = Some c ->
  getattr name (mkWorld o g) = Ok (VMethod c name, mkWorld o g).
Proof. intros H1 H2. unfold getattr. simpl. rewrite H1, H2. reflexivity. Qed.

Lemma getattr_missing name o g :
  attrs o !! name = None ->
  resolve (cls o) name = None ->
  getattr name (mkWorld o g) = Raise (AttributeError name).
Proof. intros H1 H2. unfold getattr. simpl. rewrite H1, H2. reflexivity. Qed.

Lemma setattr_same name v o g :
  attrs o !! name = Some v ->
  setattr name v (mkWorld o g) = Ok (tt, mkWorld o g).
Proof.
  intros H. unfold setattr. simpl. rewrite (insert_id _ _ _ H).
  destruct o; reflexivity.
Qed.

Lemma actor_lookup_None a o k :
  is_CategoricalActor a o -> k ∉ actor_attrs -> attrs o !! k = None.
Proof.
  intros Ho Hk. destruct (attrs o !! k) eqn:E; [|reflexivity].
  exfalso. apply Hk, (inv_attrs a o Ho). eauto.
Qed.

(** ** The methods of a built actor *)

Section BuiltActor.
Variables (o : object) (ls : list Dense) (lo : Dense).
Hypothesis Hcls : cls o = CategoricalActor.
Hypothesis Hls : attrs o !! "base_layers" = Some (VLayers ls).
Hypothesis Hlo : attrs o !! "out_prob" = Some (VDense lo).
Hypothesis Hbuilt : Forall (fun l => weights l <> None) ls.
Hypothesis Hbuilt_out : weights lo <> None.
Hypothesis Hshadow : attrs o !! "_compute_dist" = None.

Lemma call_attr_out_prob x g :
  call_attr "out_prob" x (mkWorld o g) =
    match Dense_apply lo x with
    | Ok out => Ok (out, mkWorld o g)
    | Raise e => Raise e
    end.
Proof.
  unfold call_attr, bind. rewrite (getattr_instance _ _ _ _ Hlo).
  rewrite (Dense_call_built lo x _ Hbuilt_out).
  destruct (Dense_apply lo x) as [out|e]; [|reflexivity].
  cbn [fst snd]. rewrite (setattr_same _ _ _ _ Hlo). reflexivity.
Qed.

Lemma compute_dist_built states g :
  CategoricalActor_compute_dist states (mkWorld o g) =
    match network ls lo states with
    | Ok probs => Ok (mkCategorical probs, mkWorld o g)
    | Raise e => Raise e
    end.
Proof.
  unfold CategoricalActor_compute_dist, network, bind.
  rewrite (getattr_instance _ _ _ _ Hls). cbn [as_layers ret].
  rewrite (call_layers_built ls states _ Hbuilt).
  destruct (forward_layers ls states) as [features|e]; [|reflexivity].
  cbn [fst snd]. rewrite (setattr_same _ _ _ _ Hls).
  rewrite call_attr_out_prob.
  destruct (Dense_apply lo features); reflexivity.
Qed.

Lemma self_compute_dist_built states g :
  self_compute_dist states (mkWorld o g) =
    CategoricalActor_compute_dist states (mkWorld o g).
Proof.
  unfold self_compute_dist, bind.
  rewrite (getattr_method "_compute_dist" CategoricalActor);
    [reflexivity|exact Hshadow|rewrite Hcls; reflexivity].
Qed.

End BuiltActor.

Lemma actor_compute_dist a o states g :
  is_CategoricalActor a o ->
  exists ls lo,
    attrs o !! "base_layers" = Some (VLayers ls) /\
    attrs o !! "out_prob" = Some (VDense lo) /\
    architecture a ls lo /\
    self_compute_dist states (mkWorld o g) =
      CategoricalActor_compute_dist states (mkWorld o g) /\
    CategoricalActor_compute_dist states (mkWorld o g) =
      match network ls lo states with
      | Ok probs => Ok (mkCategorical probs, mkWorld o g)
      | Raise e => Raise e
      end.
Proof.
  intros Ho. destruct (inv_network a o Ho) as (ls & lo & Hls & Hlo & Harch).
  exists ls, lo. split; [exact Hls|]. split; [exact Hlo|]. split; [exact Harch|].
  pose proof Harch as (_ & _ & Hb & _ & _ & Hbo).
  assert (Hsh : attrs o !! "_compute_dist" = None).
  { apply (actor_lookup_None a); [exact Ho|]. unfold actor_attrs. not_in_list. }
  split.
  - apply (self_compute_dist_built o); [apply (inv_cls a o Ho)|exact Hsh].
  - apply (compute_dist_built o); eauto using layers_built_weights, built_for_weights.
Qed.

(** ** Sampling and probabilities *)

Lemma sample_row_ok row o g :
  row <> [] ->
  exists k, sample_row row (mkWorld o g) = Ok (k, mkWorld o (fun i => g (S i))) /\
            k < length row.
Proof.
  intros Hrow. destruct row as [|x row]; [congruence|].
  unfold sample_row, bind, draw, ret. cbn [self rng].
  eexists. split; [reflexivity|].
  rewrite <- (length_map exp (x :: row)). apply inv_cdf_lt.
  pose proof (uval_range (g 0)) as [H0 H1].
  assert (Hpos : (0 < Rsum (map exp (x :: row)))%R) by (apply Rsum_exp_pos; congruence).
  split.
  - apply Rmult_le_pos; lra.
  - rewrite <- (Rmult_1_l (Rsum (map exp (x :: row)))) at 2.
    apply Rmult_lt_compat_r; lra.
Qed.

Lemma sample_rows_ok rows : forall o g,
  Forall (fun row => row <> []) rows ->
  exists ks g', sample_rows rows (mkWorld o g) = Ok (ks, mkWorld o g') /\
                Forall2 (fun row k => k < length row) rows ks.
Proof.
  induction rows as [|row rows IH]; intros o g Hrows; simpl.
  - exists [], g. split; [reflexivity|constructor].
  - inversion Hrows as [|? ? Hrow Hrest]; subst.
    destruct (sample_row_ok row o g Hrow) as (k & Hk & Hlt).
    destruct (IH o (fun i => g (S i)) Hrest) as (ks & g' & Hks & Hall).
    exists (k :: ks), g'. unfold bind. rewrite Hk, Hks.
    split; [reflexivity|constructor; assumption].
Qed.

Lemma log_prob_rows_ok rows ks :
  Forall2 (fun row k => k < length row) rows ks ->
  exists lp, log_prob_rows rows ks = Ok lp /\
             Forall2 (fun rk l => l = log_softmax_at rk.1 rk.2) (zip rows ks) lp.
Proof.
  induction 1 as [|row k rows ks Hk _ (lp & IH & Hlp)]; simpl.
  - exists []. split; [reflexivity|constructor].
  - apply Nat.ltb_lt in Hk. rewrite Hk, IH. eexists.
    split; [reflexivity|constructor; [reflexivity|exact Hlp]].
Qed.

Lemma exp_above (lp : vector) : Forall2 (fun l p => (l < p)%R) lp (map exp lp).
Proof.
  induction lp as [|l lp IH]; simpl; constructor; auto using exp_gt_self.
Qed.

(** ** [call] on a built actor *)


Lemma actor_network_rows a ls lo states :
  0 < action_dim a ->
  architecture a ls lo ->
  valid_states a states ->
  network ls lo states = Ok (map (spec_forward ls lo) states) /\
  Forall (fun p => length p = action_dim a) (map (spec_forward ls lo) states) /\
  Forall (fun p => p <> []) (map (spec_forward ls lo) states).
Proof.
  intros Hpos Harch Hs.
  destruct (network_valid a ls lo states Harch Hs) as [Hn Hw].
  split; [exact Hn|]. split; [exact Hw|].
  eapply Forall_impl; [exact Hw|]. intros p Hp ->. simpl in Hp. lia.
Qed.

Lemma actor_call_sample a o g states :
  is_CategoricalActor a o ->
  valid_states a states ->
  exists d actions lp g',
    CategoricalActor_compute_dist states (mkWorld o g) = Ok (d, mkWorld o g) /\
    Forall (fun p => length p = action_dim a) (logits d) /\
    length (logits d) = length states /\
    Forall2 (fun row k => k < length row) (logits d) actions /\
    log_prob_rows (logits d) actions = Ok lp /\
    CategoricalActor_call states false (mkWorld o g) =
      Ok ((actions, map exp lp), mkWorld o g').
Proof.
  intros Ho Hs.
  destruct (actor_compute_dist a o states g Ho)
    as (ls & lo & _ & _ & Harch & Hself & Hdist).
  destruct (actor_network_rows a ls lo states (inv_positive a o Ho) Harch Hs)
    as (Hn & Hw & Hne).
  rewrite Hn in Hdist.
  destruct (sample_rows_ok _ o g Hne) as (ks & g' & Hks & Hrange).
  destruct (log_prob_rows_ok _ _ Hrange) as (lp & Hlp & _).
  exists (mkCategorical (map (spec_forward ls lo) states)), ks, lp, g'.
  split; [exact Hdist|]. split; [exact Hw|].
  split; [simpl; apply length_map|]. split; [exact Hrange|]. split; [exact Hlp|].
  unfold CategoricalActor_call, bind. rewrite Hself, Hdist.
  unfold Categorical_sample. cbn [logits]. rewrite Hks.
  unfold Categorical_prob, Categorical_log_prob, bind, lift. cbn [logits].
  rewrite Hlp. reflexivity.
Qed.

(** ** The first call: building the layers *)

Lemma random_uniform_ok n limit o g :
  exists v g', random_uniform n limit (mkWorld o g) = Ok (v, mkWorld o g') /\
               length v = n.
Proof.
  revert g. induction n as [|n IH]; intros g; simpl.
  - exists [], g. split; reflexivity.
  - unfold bind, draw. cbn [self rng].
    destruct (IH (fun i => g (S i))) as (v & g' & -> & Hlen).
    eexists _, g'. split; [reflexivity|]. simpl. rewrite Hlen. reflexivity.
Qed.

Lemma random_uniform_matrix_ok rows cols limit o g :
  exists m g', random_uniform_matrix rows cols limit (mkWorld o g) = Ok (m, mkWorld o g') /\
               length m = rows.
Proof.
  revert g. induction rows as [|rows IH]; intros g; simpl.
  - exists [], g. split; reflexivity.
  - unfold bind.
    destruct (random_uniform_ok cols limit o g) as (r & g1 & -> & _).
    destruct (IH g1) as (m & g' & -> & Hlen).
    eexists _, g'. split; [reflexivity|]. simpl. rewrite Hlen. reflexivity.
Qed.

Lemma Dense_call_first l r o g :
  weights l = None ->
  exists l' out g',
    Dense_call l [r] (mkWorld o g) = Ok ((l', [out]), mkWorld o g') /\
    units l' = units l /\ activation l' = activation l /\
    built_for (length r) l' /\ length out = units l.
Proof.
  intros Hw. unfold Dense_call, Dense_build, bind. rewrite Hw.
  unfold glorot_uniform. cbn [last_dim].
  destruct (random_uniform_matrix_ok (length r) (units l)
              (glorot_limit (length r) (units l)) o g) as (k & g' & -> & Hk).
  unfold ret. cbn [weights units activation forallb].
  rewrite Hk, Nat.eqb_refl. cbn [andb map].
  eexists _, _, g'. split; [reflexivity|]. cbn [units activation].
  split; [reflexivity|]. split; [reflexivity|]. split.
  - eexists _, _. split; [reflexivity|exact Hk].
  - apply dense_row_length.
Qed.

Lemma call_layers_first ls : forall r o g,
  Forall (fun l => weights l = None) ls ->
  exists ls' out g',
    call_layers ls [r] (mkWorld o g) = Ok ((ls', [out]), mkWorld o g') /\
    map units ls' = map units ls /\
    map activation ls' = map activation ls /\
    layers_built (length r) ls' /\
    length out = out_width (length r) ls'.
Proof.
  induction ls as [|l ls IH]; intros r o g Hls; simpl.
  - exists [], r, g. repeat split; reflexivity.
  - inversion Hls as [|? ? Hl Hrest]; subst.
    destruct (Dense_call_first l r o g Hl) as (l' & out & g1 & Hc & Hu & Ha & Hb & Hout).
    destruct (IH out o g1 Hrest) as (ls' & out' & g' & Hcs & Hus & Has & Hbs & Hout').
    unfold bind. rewrite Hc. cbn [fst snd]. rewrite Hcs. cbn [fst snd].
    exists (l' :: ls'), out', g'. split; [reflexivity|].
    rewrite Hout, <- Hu in Hbs, Hout'.
    split; [simpl; congruence|]. split; [simpl; congruence|].
    split; [split; assumption|exact Hout'].
Qed.

Lemma new_base_layers_spec us h w :
  (exists ls, new_base_layers us h w = Ok (ls, w) /\
              map units ls = us /\
              Forall (fun l => weights l = None) ls /\
              Forall (fun l => activations_get h = Ok (activation l)) ls) \/
  (us <> [] /\ raises (activations_get h) /\ raises (new_base_layers us h w)).
Proof.
  induction us as [|u us IH]; simpl.
  - left. exists []. repeat split; constructor.
  - unfold bind, Dense_new, bind, lift.
    destruct (activations_get h) as [act|e] eqn:E.
    + unfold ret. destruct IH as [(ls & -> & Hu & Hw & Ha)|(Hne & [e He] & _)];
        [|discriminate].
      left. eexists. split; [reflexivity|]. simpl. rewrite Hu.
      split; [reflexivity|]. split; constructor; auto.
    + right. unfold raises. repeat split; eauto.
Qed.

Lemma setattr_eq name v o g :
  setattr name v (mkWorld o g) =
    Ok (tt, mkWorld (mkObject (cls o) (<[name := v]> (attrs o))) g).
Proof. reflexivity. Qed.

(** The forward pass of the constructor, on layers that are not built. *)
Lemma compute_dist_first o ls0 lo0 r g :
  attrs o !! "base_layers" = Some (VLayers ls0) ->
  attrs o !! "out_prob" = Some (VDense lo0) ->
  Forall (fun l => weights l = None) ls0 ->
  weights lo0 = None ->
  exists ls1 lo1 p g',
    CategoricalActor_compute_dist [r] (mkWorld o g) =
      Ok (mkCategorical [p],
          mkWorld (mkObject (cls o)
                     (<["out_prob" := VDense lo1]>
                        (<["base_layers" := VLayers ls1]> (attrs o)))) g') /\
    map units ls1 = map units ls0 /\
    map activation ls1 = map activation ls0 /\
    layers_built (length r) ls1 /\
    units lo1 = units lo0 /\ activation lo1 = activation lo0 /\
    built_for (out_width (length r) ls1) lo1 /\
    length p = units lo0.
Proof.
  intros Hls Hlo Hw Hwo.
  destruct (call_layers_first ls0 r o g Hw)
    as (ls1 & out & g1 & Hcs & Hus & Has & Hbs & Hout).
  unfold CategoricalActor_compute_dist, bind.
  rewrite (getattr_instance _ _ _ _ Hls). cbn [as_layers ret].
  rewrite Hcs. cbn [fst snd]. rewrite setattr_eq.
  set (o1 := mkObject (cls o) (<["base_layers" := VLayers ls1]> (attrs o))).
  assert (Hlo1 : attrs o1 !! "out_prob" = Some (VDense lo0)).
  { subst o1. cbn [attrs]. rewrite lookup_insert_ne by discriminate. exact Hlo. }
  destruct (Dense_call_first lo0 out o1 g1 Hwo)
    as (lo1 & p & g' & Hc & Hu & Ha & Hb & Hp).
  unfold call_attr, bind. rewrite (getattr_instance _ _ _ _ Hlo1).
  rewrite Hc. cbn [fst snd]. rewrite setattr_eq. cbn [Categorical_new ret].
  exists ls1, lo1, p, g'. subst o1. cbn [cls attrs].
  rewrite Hout in Hb. repeat split; assumption.
Qed.

Ltac lookup_attrs :=
  cbn [attrs cls self rng];
  repeat first
    [ rewrite lookup_insert_eq
    | rewrite lookup_insert_ne by discriminate
    | rewrite lookup_empty ].

(** ** The constructor of [CategoricalActor] *)

Lemma np_zeros_one n : np_zeros 1 n = @cons vector (repeat 0%R n) (@nil vector).
Proof. reflexivity. Qed.

Lemma construct_CategoricalActor_cases a g :
  (units_arg a <> [] /\ raises (activations_get (hidden_activation a)) /\
   raises (construct CategoricalActor a g)) \/
  (action_dim a = 0 /\ raises (construct CategoricalActor a g)) \/
  (0 < action_dim a /\
   exists w, construct CategoricalActor a g = Ok w /\ is_CategoricalActor a (self w)).
Proof.
  remember (construct CategoricalActor a g) as res eqn:Hres.
  unfold construct, CategoricalActor__init__, new_object in Hres.
  unfold bind at 1 in Hres. unfold keras_Model__init__ in Hres.
  rewrite setattr_eq in Hres.
  unfold bind at 1 in Hres. rewrite setattr_eq in Hres. cbn [cls attrs] in Hres.
  unfold bind at 1 in Hres.
  match type of Hres with context [new_base_layers _ _ ?w] =>
    destruct (new_base_layers_spec (units_arg a) (hidden_activation a) w)
      as [(ls0 & Hnew & Hus0 & Hws0 & Has0)|(Hne & Hact & [e He])]
  end.
  2:{ left. split; [exact Hne|]. split; [exact Hact|].
      rewrite He in Hres. subst res. eexists; reflexivity. }
  right. rewrite Hnew in Hres.
  unfold bind at 1 in Hres. rewrite setattr_eq in Hres. cbn [cls attrs] in Hres.
  unfold bind at 1 in Hres. unfold Dense_new, bind, lift in Hres.
  cbn [activations_get String.eqb Ascii.eqb Bool.eqb] in Hres.
  unfold ret at 1 in Hres. rewrite setattr_eq in Hres. cbn [cls attrs] in Hres.
  match type of Hres with context [keras_Model__call__ _ (mkWorld ?o _)] =>
    set (o4 := o) in *
  end.
  assert (Hcall : getattr "call" (mkWorld o4 g) = Ok (VMethod CategoricalActor "call", mkWorld o4 g)).
  { apply getattr_method; [subst o4; lookup_attrs; reflexivity|reflexivity]. }
  unfold keras_Model__call__, bind in Hres. rewrite Hcall in Hres.
  unfold CategoricalActor_call, bind in Hres.
  assert (Hself : forall x, self_compute_dist x (mkWorld o4 g) =
                            CategoricalActor_compute_dist x (mkWorld o4 g)).
  { intros x. unfold self_compute_dist, bind.
    rewrite (getattr_method "_compute_dist" CategoricalActor);
      [reflexivity|subst o4; lookup_attrs; reflexivity|reflexivity]. }
  rewrite Hself, np_zeros_one in Hres.
  destruct (compute_dist_first o4 ls0 (mkDense (action_dim a) softmax_act None)
              (repeat 0%R (state_shape a)) g)
    as (ls1 & lo1 & p & g1 & Hdist & Hus & Has & Hbs & Huo & Hao & Hbo & Hp);
    [subst o4; lookup_attrs; reflexivity..|exact Hws0|reflexivity|].
  rewrite Hdist in Hres. cbn [units activation] in Huo, Hao, Hp.
  rewrite repeat_length in Hbs, Hbo.
  unfold Categorical_sample in Hres. cbn [logits sample_rows] in Hres.
  unfold bind at 1 in Hres.
  destruct (Nat.eq_dec (action_dim a) 0) as [HK|HK].
  - left. split; [exact HK|]. rewrite HK in Hp.
    destruct p; [|discriminate Hp]. cbn [sample_row raise] in Hres.
    subst res. eexists; reflexivity.
  - right. split; [lia|].
    match type of Hres with context [sample_row p (mkWorld ?o ?g)] =>
      destruct (sample_row_ok p o g) as (k & Hk & Hlt);
        [intros ->; simpl in Hp; lia|]; set (o6 := o) in *
    end.
    rewrite Hk in Hres. unfold bind at 1 in Hres.
    unfold ret at 1 in Hres. unfold ret at 1 in Hres.
    unfold Categorical_prob, Categorical_log_prob, bind, lift in Hres.
    cbn [logits log_prob_rows] in Hres.
    apply Nat.ltb_lt in Hlt. rewrite Hlt in Hres. unfold ret in Hres.
    eexists. split; [exact Hres|]. cbn [self].
    constructor.
    + reflexivity.
    + intros key. subst o6 o4. cbn [attrs cls].
      rewrite !lookup_insert_is_Some, lookup_empty. unfold actor_attrs.
      intros H. repeat (destruct H as [<-|[_ H]]; [in_list|]).
      destruct H as [? H]; discriminate H.
    + subst o6 o4. lookup_attrs. reflexivity.
    + subst o6 o4. lookup_attrs. reflexivity.
    + lia.
    + exists ls1, lo1. subst o6 o4.
      split; [lookup_attrs; reflexivity|]. split; [lookup_attrs; reflexivity|].
      unfold architecture. split; [rewrite Hus; exact Hus0|].
      split.
      { clear -Has Has0. revert ls0 Has Has0.
        induction ls1 as [|l1 ls1 IH]; intros [|l0 ls0] Hm H0;
          try discriminate Hm; constructor.
        - inversion Hm as [[Hh Ht]]. inversion H0; subst. congruence.
        - inversion Hm as [[Hh Ht]]. inversion H0; subst. eauto. }
      repeat split; assumption.
Qed.

Lemma construct_CategoricalActor_inv a g w :
  construct CategoricalActor a g = Ok w -> is_CategoricalActor a (self w).
Proof.
  intros H.
  destruct (construct_CategoricalActor_cases a g)
    as [(_ & _ & [e He])|[(_ & [e He])|(_ & w' & Hw & Hinv)]];
    rewrite H in *; try discriminate.
  inversion Hw; subst. exact Hinv.
Qed.

Lemma construct_CategoricalActor_returns a g :
  0 < action_dim a ->
  units_arg a = [] \/ returns (activations_get (hidden_activation a)) ->
  exists w, construct CategoricalActor a g = Ok w /\ is_CategoricalActor a (self w).
Proof.
  intros HK Hact.
  destruct (construct_CategoricalActor_cases a g)
    as [(Hne & [e He] & _)|[(H0 & _)|(_ & H)]]; [|lia|exact H].
  destruct Hact as [Hnil|[x Hx]]; congruence.
Qed.

(** ** Training keeps an actor an actor *)

Lemma same_shape_built d l l' : same_shape l l' -> built_for d l -> built_for d l'.
Proof.
  intros (_ & _ & Hw) (k & b & Hl & Hk). unfold built_for. rewrite Hl in Hw.
  destruct (weights l') as [[k' b']|] eqn:Hl'; [|contradiction].
  exists k', b'. split; [reflexivity|congruence].
Qed.

Lemma same_shape_layers ls ls' :
  Forall2 same_shape ls ls' ->
  map units ls' = map units ls /\
  (forall (P : Activation -> Prop),
      Forall (fun l => P (activation l)) ls -> Forall (fun l => P (activation l)) ls') /\
  (forall d, layers_built d ls -> layers_built d ls') /\
  (forall d, out_width d ls' = out_width d ls).
Proof.
  induction 1 as [|l l' ls ls' Hl _ (IH1 & IH2 & IH3 & IH4)].
  - split; [reflexivity|]. split; [auto|]. split; [auto|reflexivity].
  - pose proof Hl as (Hu & Ha & _). split; [|split; [|split]].
    + simpl. congruence.
    + intros P HP. inversion HP; subst. constructor; [rewrite Ha; assumption|auto].
    + intros d [Hb Hbs]. simpl. rewrite Hu. eauto using same_shape_built.
    + intros d. unfold out_width in *. simpl. rewrite Hu. apply IH4.
Qed.

Lemma trained_is_actor a o o' :
  is_CategoricalActor a o -> trained o o' -> is_CategoricalActor a o'.
Proof.
  intros Ho Ht. destruct Ht as [ls lo ls' lo' Hls Hlo Hss Hso].
  destruct (inv_network a o Ho) as (ls0 & lo0 & Hls0 & Hlo0 & Harch).
  rewrite Hls in Hls0. rewrite Hlo in Hlo0.
  inversion Hls0; inversion Hlo0; subst ls0 lo0; clear Hls0 Hlo0.
  destruct (same_shape_layers ls ls' Hss) as (Hu & Ha & Hb & Hw).
  destruct Harch as (A1 & A2 & A3 & A4 & A5 & A6).
  pose proof Hso as (Huo & Hao & _).
  constructor; cbn [cls attrs].
  - apply (inv_cls a o Ho).
  - intros k. rewrite !lookup_insert_is_Some.
    intros [<-|[_ [<-|[_ H]]]]; [in_list..|].
    apply (inv_attrs a o Ho), H.
  - rewrite !lookup_insert_ne by discriminate. apply (inv_name a o Ho).
  - rewrite !lookup_insert_ne by discriminate. apply (inv_action_dim a o Ho).
  - apply (inv_positive a o Ho).
  - exists ls', lo'. split; [|split].
    + rewrite lookup_insert_ne by discriminate. apply lookup_insert_eq.
    + apply lookup_insert_eq.
    + unfold architecture. rewrite Hu, Hw, Huo, Hao.
      split; [exact A1|]. split; [apply (Ha (fun x => _ = Ok x)), A2|].
      split; [auto|]. split; [exact A4|]. split; [exact A5|].
      eauto using same_shape_built.
Qed.

Lemma instance_is_actor a o :
  CategoricalActor_instance a o -> is_CategoricalActor a o.
Proof.
  induction 1 as [g w Hw|o o' _ IH Ht].
  - eapply construct_CategoricalActor_inv, Hw.
  - eapply trained_is_actor; eassumption.
Qed.

(** ** The concrete actor *)

Lemma actor0_is_actor : is_CategoricalActor args0 actor0.
Proof.
  constructor; unfold actor0, args0; cbn [cls attrs action_dim name_arg].
  - reflexivity.
  - intros k. rewrite !lookup_insert_is_Some, lookup_empty.
    intros H. repeat (destruct H as [<-|[_ H]]; [in_list|]).
    destruct H as [? H]; discriminate H.
  - lookup_attrs. reflexivity.
  - lookup_attrs. reflexivity.
  - lia.
  - exists [], out_prob0. split; [lookup_attrs; reflexivity|].
    split; [lookup_attrs; reflexivity|].
    unfold architecture. cbn. repeat split; try constructor.
    eexists _, _. split; reflexivity.
Qed.

Lemma valid_states0 : valid_states args0 states0.
Proof. repeat constructor. Qed.

Lemma args0_instance (g : stream) :
  exists w, construct CategoricalActor args0 g = Ok w /\
            CategoricalActor_instance args0 (self w).
Proof.
  destruct (construct_CategoricalActor_returns args0 g) as (w & Hw & _).
  - simpl. lia.
  - left. reflexivity.
  - exists w. split; [exact Hw|]. econstructor. exact Hw.
Qed.

(** The concrete actor is an instance: the constructor, then training to
    zero weights. *)
Lemma actor0_instance : CategoricalActor_instance args0 actor0.
Proof.
  destruct (args0_instance g_zero) as (w & _ & Hi).
  pose proof (instance_is_actor _ _ Hi) as Ho.
  destruct (inv_network _ _ Ho) as (ls & lo & Hls & Hlo & Harch).
  destruct Harch as (A1 & _ & _ & A4 & A5 & (k & b & Hw & Hk)).
  destruct ls as [|l ls]; [|discriminate A1].
  assert (Heq : actor0 =
                mkObject (cls (self w))
                  (<["out_prob" := VDense out_prob0]>
                     (<["base_layers" := VLayers []]> (attrs (self w))))).
  { unfold actor0. rewrite (inv_cls _ _ Ho). f_equal.
    apply map_eq. intros key.
    destruct (decide (key = "out_prob")) as [->|N1]; [lookup_attrs; reflexivity|].
    destruct (decide (key = "base_layers")) as [->|N2]; [lookup_attrs; reflexivity|].
    destruct (decide (key = "action_dim")) as [->|N3].
    { lookup_attrs. symmetry. apply (inv_action_dim _ _ Ho). }
    destruct (decide (key = "_name")) as [->|N4].
    { lookup_attrs. symmetry. apply (inv_name _ _ Ho). }
    rewrite !lookup_insert_ne, lookup_empty by congruence.
    symmetry. apply (actor_lookup_None args0); [exact Ho|].
    unfold actor_attrs. intros H.
    repeat (apply elem_of_cons in H as [H|H]; [congruence|]). inversion H. }
  rewrite Heq. eapply instance_trained; [exact Hi|].
  eapply trained_step; [exact Hls|exact Hlo|constructor|].
  unfold same_shape. rewrite Hw. cbn in *. repeat split; congruence.
Qed.

Section Concrete.
Local Open Scope R_scope.

Lemma inv_cdf_first (w s : R) (ws : vector) :
  0 < w -> inv_cdf (w :: ws) (0 * s) = 0%nat.
Proof.
  intros Hw. simpl. destruct (Rlt_dec (0 * s) w) as [_|Hn]; [reflexivity|].
  exfalso. apply Hn. lra.
Qed.

Lemma prob_two_equal (x : R) (k : nat) :
  (k < 2)%nat -> exp (log_softmax_at [x; x] k) = 1 / 2.
Proof.
  intros Hk. unfold log_softmax_at. pose proof (exp_pos x) as Hx.
  assert (Hn : nth k [x; x] 0 = x) by (destruct k as [|[|k]]; [reflexivity..|lia]).
  rewrite Hn. simpl. unfold Rminus. rewrite exp_plus, exp_Ropp, exp_ln by lra.
  field. lra.
Qed.

Lemma ln_half_below : ln (1 / 2) < 1 / 2.
Proof.
  pose proof (exp_gt_self (ln (1 / 2))) as H. rewrite exp_ln in H by lra. exact H.
Qed.

End Concrete.

Lemma actor0_compute_dist states g :
  CategoricalActor_compute_dist states (mkWorld actor0 g) =
    match network [] out_prob0 states with
    | Ok probs => Ok (mkCategorical probs, mkWorld actor0 g)
    | Raise e => Raise e
    end.
Proof.
  apply compute_dist_built.
  - unfold actor0. lookup_attrs. reflexivity.
  - unfold actor0. lookup_attrs. reflexivity.
  - constructor.
  - discriminate.
Qed.

Lemma actor0_self_compute_dist states g :
  self_compute_dist states (mkWorld actor0 g) =
    CategoricalActor_compute_dist states (mkWorld actor0 g).
Proof.
  apply self_compute_dist_built; [reflexivity|].
  unfold actor0. lookup_attrs. reflexivity.
Qed.


Ltac run_actor0 :=
  unfold CategoricalActor_call, bind;
  rewrite actor0_self_compute_dist, actor0_compute_dist;
  unfold network, states0, out_prob0;
  cbn [forward_layers Dense_apply weights forallb length Nat.eqb andb map
       units activation];
  unfold dense_row; cbn [seq map apply_activation column nth];
  unfold dot; cbn [zip_with Rsum fold_right];
  unfold softmax; cbn [map Rsum fold_right].

(** On the concrete actor the sampled call returns the probability [1/2],
    whatever the draw; the draw decides the action. *)
Lemma call_actor0_zero :
  exists second g',
    CategoricalActor_call states0 false (mkWorld actor0 g_zero) =
      Ok (([0], [second]), mkWorld actor0 g') /\
    second = (1 / 2)%R.
Proof.
  run_actor0.
  unfold Categorical_sample. cbn [logits sample_rows]. unfold bind.
  cbn [sample_row]. unfold bind, draw.
  cbn [rng self g_zero u_zero uval ret map Rsum fold_right].
  rewrite inv_cdf_first by apply exp_pos.
  unfold Categorical_prob, Categorical_log_prob, bind, lift.
  cbn [logits log_prob_rows length Nat.ltb Nat.leb ret map].
  eexists _, _. split; [reflexivity|]. apply prob_two_equal. lia.
Qed.

(** ** Methods of an actor that raise *)

Lemma actor_call_test a o g states :
  is_CategoricalActor a o ->
  CategoricalActor_call states true (mkWorld o g) =
    match CategoricalActor_compute_dist states (mkWorld o g) with
    | Ok _ => Raise (NotImplementedError "mean is not implemented: Categorical")
    | Raise e => Raise e
    end.
Proof.
  intros Ho.
  destruct (actor_compute_dist a o states g Ho) as (ls & lo & _ & _ & _ & Hself & Hd).
  unfold CategoricalActor_call, bind. rewrite Hself, Hd.
  destruct (network ls lo states); reflexivity.
Qed.


Lemma actor_compute_dist_valid a o g states :
  is_CategoricalActor a o ->
  valid_states a states ->
  exists ls lo,
    attrs o !! "base_layers" = Some (VLayers ls) /\
    attrs o !! "out_prob" = Some (VDense lo) /\
    architecture a ls lo /\
    self_compute_dist states (mkWorld o g) =
      Ok (mkCategorical (map (spec_forward ls lo) states), mkWorld o g) /\
    CategoricalActor_compute_dist states (mkWorld o g) =
      Ok (mkCategorical (map (spec_forward ls lo) states), mkWorld o g) /\
    Forall (fun p => length p = action_dim a) (map (spec_forward ls lo) states).
Proof.
  intros Ho Hs.
  destruct (actor_compute_dist a o states g Ho) as (ls & lo & Hls & Hlo & Harch & Hself & Hd).
  destruct (network_valid a ls lo states Harch Hs) as [Hn Hw].
  rewrite Hn in Hd. rewrite Hd in Hself. exists ls, lo.
  split; [exact Hls|]. split; [exact Hlo|]. split; [exact Harch|].
  split; [exact Hself|]. split; [exact Hd|exact Hw].
Qed.

Lemma actor_compute_prob a o g states :
  is_CategoricalActor a o ->
  valid_states a states ->
  CategoricalActor_compute_prob states (mkWorld o g) =
    Raise (TypeError "a distribution is not indexed by a string").
Proof.
  intros Ho Hs.
  destruct (actor_compute_dist_valid a o g states Ho Hs) as (ls & lo & _ & _ & _ & Hself & _).
  unfold CategoricalActor_compute_prob, bind. rewrite Hself. reflexivity.
Qed.

Lemma actor_compute_log_probs a o g states actions :
  is_CategoricalActor a o ->
  valid_states a states ->
  CategoricalActor_compute_log_probs states actions (mkWorld o g) =
    Raise (TypeError "a distribution is not indexed by a string").
Proof.
  intros Ho Hs.
  destruct (actor_compute_dist_valid a o g states Ho Hs) as (ls & lo & _ & _ & _ & Hself & _).
  unfold CategoricalActor_compute_log_probs. unfold bind at 1. rewrite Hself.
  unfold bind at 1. unfold bind at 1.
  rewrite (getattr_instance _ _ _ _ (inv_action_dim a o Ho)). reflexivity.
Qed.

Lemma actor_no_dist a o g :
  is_CategoricalActor a o ->
  getattr "dist" (mkWorld o g) = Raise (AttributeError "dist").
Proof.
  intros Ho. apply getattr_missing.
  - apply (actor_lookup_None a); [exact Ho|]. unfold actor_attrs. not_in_list.
  - apply resolve_undefined. repeat constructor.
Qed.

(** ** The actor-critic *)

Lemma critic_call_raises states test w :
  attrs (self w) !! "_compute_feature" = None ->
  CategoricalActorCritic_call states test w =
    Raise (AttributeError "_compute_feature").
Proof.
  intros H. destruct w as [o g]. cbn [self] in H.
  unfold CategoricalActorCritic_call. unfold bind at 1.
  unfold call_attr. unfold bind at 1.
  rewrite (getattr_missing _ _ _ H); [reflexivity|].
  apply resolve_undefined. repeat constructor.
Qed.

Lemma critic_construct_cases a g :
  construct CategoricalActorCritic a g = Raise (AttributeError "_compute_feature") \/
  (units_arg a <> [] /\ raises (activations_get (hidden_activation a)) /\
   raises (construct CategoricalActorCritic a g)).
Proof.
  remember (construct CategoricalActorCritic a g) as res eqn:Hres.
  unfold construct, CategoricalActorCritic__init__, new_object in Hres.
  unfold bind at 1 in Hres. unfold keras_Model__init__ at 1 in Hres.
  rewrite setattr_eq in Hres. cbn [cls attrs] in Hres.
  unfold bind at 1 in Hres. unfold Dense_new at 1 in Hres.
  unfold bind at 1 in Hres. unfold lift in Hres.
  cbn [activations_get String.eqb Ascii.eqb Bool.eqb] in Hres.
  unfold ret at 1 in Hres. unfold bind at 1 in Hres.
  rewrite setattr_eq in Hres. cbn [cls attrs] in Hres.
  unfold CategoricalActor__init__ in Hres.
  unfold bind at 1 in Hres. unfold keras_Model__init__ in Hres.
  rewrite setattr_eq in Hres. cbn [cls attrs] in Hres.
  unfold bind at 1 in Hres. rewrite setattr_eq in Hres. cbn [cls attrs] in Hres.
  unfold bind at 1 in Hres.
  match type of Hres with context [new_base_layers _ _ ?w] =>
    destruct (new_base_layers_spec (units_arg a) (hidden_activation a) w)
      as [(ls0 & Hnew & _)|(Hne & Hact & [e He])]
  end.
  2:{ right. split; [exact Hne|]. split; [exact Hact|].
      rewrite He in Hres. subst res. eexists; reflexivity. }
  left. rewrite Hnew in Hres.
  unfold bind at 1 in Hres. rewrite setattr_eq in Hres. cbn [cls attrs] in Hres.
  unfold bind at 1 in Hres. unfold Dense_new, bind, lift in Hres.
  cbn [activations_get String.eqb Ascii.eqb Bool.eqb] in Hres.
  unfold ret at 1 in Hres. rewrite setattr_eq in Hres. cbn [cls attrs] in Hres.
  match type of Hres with context [keras_Model__call__ _ (mkWorld ?o _)] =>
    set (o4 := o) in *
  end.
  assert (Hcall : getattr "call" (mkWorld o4 g) =
                    Ok (VMethod CategoricalActorCritic "call", mkWorld o4 g)).
  { apply getattr_method; [subst o4; lookup_attrs; reflexivity|reflexivity]. }
  unfold keras_Model__call__, bind in Hres. rewrite Hcall in Hres.
  rewrite critic_call_raises in Hres; [exact Hres|].
  subst o4. lookup_attrs. reflexivity.
Qed.

Lemma log_prob_rows_length rows : forall ks lp,
  log_prob_rows rows ks = Ok lp -> length lp = length rows.
Proof.
  induction rows as [|row rows IH]; intros [|k ks] lp H; simpl in H;
    try discriminate.
  - inversion H. reflexivity.
  - destruct (Nat.ltb k (length row)); [|discriminate].
    destruct (log_prob_rows rows ks) as [rest|e] eqn:E; [|discriminate].
    inversion H. simpl. f_equal. eauto.
Qed.

(** * The claims *)

(** C1 (the code departs from it).  [call] is documented to return the log
    probabilities of the selected actions.  For every actor and every batch
    of states of its shape, the sampled call returns, as second value, the
    exponential of the log-probabilities of the returned actions under the
    computed distribution, that is their probabilities; each entry is
    strictly above the log-probability that the claim asks for. *)
Theorem call_second_value_is_probability a o g states :
  CategoricalActor_instance a o ->
  valid_states a states ->
  exists d actions lp g',
    CategoricalActor_compute_dist states (mkWorld o g) = Ok (d, mkWorld o g) /\
    outcome (Categorical_log_prob d actions (mkWorld o g)) = Ok lp /\
    CategoricalActor_call states false (mkWorld o g) =
      Ok ((actions, map exp lp), mkWorld o g') /\
    length lp = length states /\
    Forall2 (fun l p => (l < p)%R) lp (map exp lp).
Proof.
  intros Hi Hs. apply instance_is_actor in Hi.
  destruct (actor_call_sample a o g states Hi Hs)
    as (d & actions & lp & g' & Hd & _ & Hlen & _ & Hlp & Hcall).
  exists d, actions, lp, g'. split; [exact Hd|].
  split; [unfold Categorical_log_prob, lift; rewrite Hlp; reflexivity|].
  split; [exact Hcall|].
  split; [rewrite (log_prob_rows_length _ _ _ Hlp); exact Hlen|apply exp_above].
Qed.

Lemma call_second_value_is_probability_witness :
  CategoricalActor_instance args0 actor0 /\ valid_states args0 states0 /\
  exists d actions lp g',
    CategoricalActor_compute_dist states0 (mkWorld actor0 g_zero) = Ok (d, mkWorld actor0 g_zero) /\
    outcome (Categorical_log_prob d actions (mkWorld actor0 g_zero)) = Ok lp /\
    CategoricalActor_call states0 false (mkWorld actor0 g_zero) =
      Ok ((actions, map exp lp), mkWorld actor0 g') /\
    length lp = length states0 /\
    Forall2 (fun l p => (l < p)%R) lp (map exp lp).
Proof.
  split; [exact actor0_instance|]. split; [exact valid_states0|].
  exact (call_second_value_is_probability args0 actor0 g_zero states0 actor0_instance valid_states0).
Defined.

(** C1, at the concrete actor: the second value is [1/2], the probability
    of the action, and not its logarithm. *)
Lemma call_actor0_returns_probability :
  exists second g',
    CategoricalActor_call states0 false (mkWorld actor0 g_zero) =
      Ok (([0], [second]), mkWorld actor0 g') /\
    second = (1 / 2)%R /\ second <> ln (1 / 2).
Proof.
  destruct call_actor0_zero as (second & g' & Hcall & Hsecond).
  exists second, g'. split; [exact Hcall|]. split; [exact Hsecond|].
  rewrite Hsecond. pose proof ln_half_below. lra.
Qed.

(** C2 (the code departs from it).  With [test=True] the call asks the
    distribution for its mean, which the library does not implement for a
    categorical distribution: for every actor and every batch of states of
    its shape the call raises and returns no action. *)
Theorem call_test_raises_not_implemented a o g states :
  CategoricalActor_instance a o ->
  valid_states a states ->
  CategoricalActor_call states true (mkWorld o g) =
    Raise (NotImplementedError "mean is not implemented: Categorical").
Proof.
  intros Hi Hs. apply instance_is_actor in Hi.
  rewrite (actor_call_test a o g states Hi).
  destruct (actor_compute_dist_valid a o g states Hi Hs)
    as (ls & lo & _ & _ & _ & _ & -> & _).
  reflexivity.
Qed.

Lemma call_test_raises_not_implemented_witness :
  CategoricalActor_instance args0 actor0 /\ valid_states args0 states0 /\
  CategoricalActor_call states0 true (mkWorld actor0 g_zero) =
    Raise (NotImplementedError "mean is not implemented: Categorical").
Proof.
  split; [exact actor0_instance|]. split; [exact valid_states0|].
  exact (call_test_raises_not_implemented args0 actor0 g_zero states0 actor0_instance valid_states0).
Defined.

(** C3 (the code departs from it).  [compute_prob] subscripts the
    distribution object with the string ["prob"]; for every actor and every
    batch of states of its shape it raises instead of returning the
    probability vectors. *)
Theorem compute_prob_raises a o g states :
  CategoricalActor_instance a o ->
  valid_states a states ->
  CategoricalActor_compute_prob states (mkWorld o g) =
    Raise (TypeError "a distribution is not indexed by a string").
Proof.
  intros Hi Hs. apply instance_is_actor in Hi.
  exact (actor_compute_prob a o g states Hi Hs).
Qed.

Lemma compute_prob_raises_witness :
  CategoricalActor_instance args0 actor0 /\ valid_states args0 states0 /\
  CategoricalActor_compute_prob states0 (mkWorld actor0 g_zero) =
    Raise (TypeError "a distribution is not indexed by a string").
Proof.
  split; [exact actor0_instance|]. split; [exact valid_states0|].
  exact (compute_prob_raises args0 actor0 g_zero states0 actor0_instance valid_states0).
Defined.

(** C4 (the code departs from it).  [CategoricalActorCritic.call] starts by
    reading [self._compute_feature]; on every receiver without an instance
    attribute of that name (no class defines one) the call raises an
    [AttributeError] instead of returning the triple. *)
Theorem CategoricalActorCritic_call_raises states test w :
  cls (self w) = CategoricalActorCritic ->
  attrs (self w) !! "_compute_feature" = None ->
  CategoricalActorCritic_call states test w =
    Raise (AttributeError "_compute_feature").
Proof. intros _ H. exact (critic_call_raises states test w H). Qed.

Lemma CategoricalActorCritic_call_raises_witness :
  cls critic0 = CategoricalActorCritic /\
  attrs critic0 !! "_compute_feature" = None /\
  CategoricalActorCritic_call (np_zeros 1 1) false (mkWorld critic0 g_zero) =
    Raise (AttributeError "_compute_feature").
Proof.
  assert (H : attrs critic0 !! "_compute_feature" = None).
  { unfold critic0. lookup_attrs. reflexivity. }
  split; [reflexivity|]. split; [exact H|].
  exact (CategoricalActorCritic_call_raises (np_zeros 1 1) false
           (mkWorld critic0 g_zero) eq_refl H).
Defined.

(** C5.  For every actor constructed with arguments [a] and every batch of
    states of its shape, [_compute_dist] returns the categorical
    distribution whose parameter rows are the states fed through the hidden
    layers in order (one layer per entry of [units], each with the hidden
    activation) and then through the softmax output layer of width
    [action_dim]; every row has [action_dim] entries.  The call leaves the
    actor and the random generator unchanged. *)
Theorem compute_dist_feeds_network a o g states :
  CategoricalActor_instance a o ->
  valid_states a states ->
  exists base_layers out_prob,
    attrs o !! "base_layers" = Some (VLayers base_layers) /\
    attrs o !! "out_prob" = Some (VDense out_prob) /\
    map units base_layers = units_arg a /\
    Forall (fun l => activations_get (hidden_activation a) = Ok (activation l))
      base_layers /\
    units out_prob = action_dim a /\
    activation out_prob = softmax_act /\
    Forall (fun l => weights l <> None) (base_layers ++ [out_prob]) /\
    CategoricalActor_compute_dist states (mkWorld o g) =
      Ok (mkCategorical (map (spec_forward base_layers out_prob) states),
          mkWorld o g) /\
    Forall (fun row => length row = action_dim a)
      (map (spec_forward base_layers out_prob) states).
Proof.
  intros Hi Hs. apply instance_is_actor in Hi.
  destruct (actor_compute_dist_valid a o g states Hi Hs)
    as (ls & lo & Hls & Hlo & Harch & _ & Hd & Hw).
  pose proof Harch as (A1 & A2 & A3 & A4 & A5 & A6).
  exists ls, lo.
  split; [exact Hls|]. split; [exact Hlo|]. split; [exact A1|].
  split; [exact A2|]. split; [exact A4|]. split; [exact A5|].
  split; [|split; [exact Hd|exact Hw]].
  apply Forall_app. split; [eapply layers_built_weights, A3|].
  constructor; [eapply built_for_weights, A6|constructor].
Qed.

Lemma compute_dist_feeds_network_witness :
  CategoricalActor_instance args0 actor0 /\ valid_states args0 states0 /\
  exists base_layers out_prob,
    attrs actor0 !! "base_layers" = Some (VLayers base_layers) /\
    attrs actor0 !! "out_prob" = Some (VDense out_prob) /\
    map units base_layers = units_arg args0 /\
    Forall (fun l => activations_get (hidden_activation args0) = Ok (activation l))
      base_layers /\
    units out_prob = action_dim args0 /\
    activation out_prob = softmax_act /\
    Forall (fun l => weights l <> None) (base_layers ++ [out_prob]) /\
    CategoricalActor_compute_dist states0 (mkWorld actor0 g_zero) =
      Ok (mkCategorical (map (spec_forward base_layers out_prob) states0),
          mkWorld actor0 g_zero) /\
    Forall (fun row => length row = action_dim args0)
      (map (spec_forward base_layers out_prob) states0).
Proof.
  split; [exact actor0_instance|]. split; [exact valid_states0|].
  exact (compute_dist_feeds_network args0 actor0 g_zero states0 actor0_instance valid_states0).
Defined.




(** C9, as stated, fails: on the concrete actor [compute_log_probs] ends in
    the [TypeError] of the subscript, not in an [AttributeError]. *)
Lemma compute_log_probs_not_attribute_error :
  CategoricalActor_instance args0 actor0 /\
  CategoricalActor_compute_log_probs states0 [0] (mkWorld actor0 g_zero) =
    Raise (TypeError "a distribution is not indexed by a string") /\
  ~ exists attr,
      CategoricalActor_compute_log_probs states0 [0] (mkWorld actor0 g_zero) =
        Raise (AttributeError attr).
Proof.
  split; [exact actor0_instance|].
  rewrite (actor_compute_log_probs args0 actor0 g_zero states0 [0]
             actor0_is_actor valid_states0).
  split; [reflexivity|]. intros [attr H]. discriminate H.
Qed.

(** C9, amended.  For every actor and every pair of inputs with states of
    its shape, [compute_log_probs] fails with the exception that the
    library raises when the distribution object is subscripted with
    ["prob"] (line 78), whatever its class, raised before [self.dist] is
    read; no instance attribute and no class member is named [dist], so
    reading [self.dist] raises an [AttributeError].  The source method is
    the case of the library operations of this file. *)
Theorem compute_log_probs_fails_at_subscript a o g states actions getitem setitem :
  CategoricalActor_instance a o ->
  valid_states a states ->
  (forall d w, raises (getitem d "prob" w)) ->
  exists d e,
    self_compute_dist states (mkWorld o g) = Ok (d, mkWorld o g) /\
    getitem d "prob" (mkWorld o g) = Raise e /\
    CategoricalActor_compute_log_probs_with getitem setitem states actions
      (mkWorld o g) = Raise e /\
    getattr "dist" (mkWorld o g) = Raise (AttributeError "dist") /\
    CategoricalActor_compute_log_probs =
      CategoricalActor_compute_log_probs_with Categorical_getitem Categorical_setitem.
Proof.
  intros Hi Hs Hsub. apply instance_is_actor in Hi.
  destruct (actor_compute_dist_valid a o g states Hi Hs)
    as (ls & lo & _ & _ & _ & Hself & _).
  destruct (Hsub (mkCategorical (map (spec_forward ls lo) states)) (mkWorld o g))
    as [e He].
  eexists _, e. split; [exact Hself|]. split; [exact He|].
  split; [|split; [exact (actor_no_dist a o g Hi)|reflexivity]].
  unfold CategoricalActor_compute_log_probs_with. unfold bind at 1. rewrite Hself.
  unfold bind at 1. unfold bind at 1.
  rewrite (getattr_instance _ _ _ _ (inv_action_dim a o Hi)).
  cbn [as_int ret]. unfold bind at 1. rewrite He. reflexivity.
Qed.

Lemma compute_log_probs_fails_at_subscript_witness :
  CategoricalActor_instance args0 actor0 /\ valid_states args0 states0 /\
  (forall d w, raises (Categorical_getitem d "prob" w)) /\
  exists d e,
    self_compute_dist states0 (mkWorld actor0 g_zero) = Ok (d, mkWorld actor0 g_zero) /\
    Categorical_getitem d "prob" (mkWorld actor0 g_zero) = Raise e /\
    CategoricalActor_compute_log_probs states0 [0] (mkWorld actor0 g_zero) = Raise e /\
    getattr "dist" (mkWorld actor0 g_zero) = Raise (AttributeError "dist") /\
    CategoricalActor_compute_log_probs =
      CategoricalActor_compute_log_probs_with Categorical_getitem Categorical_setitem.
Proof.
  assert (H : forall d w, raises (Categorical_getitem d "prob" w)).
  { intros d w. eexists. reflexivity. }
  split; [exact actor0_instance|]. split; [exact valid_states0|]. split; [exact H|].
  exact (compute_log_probs_fails_at_subscript args0 actor0 g_zero states0 [0]
           Categorical_getitem Categorical_setitem actor0_instance valid_states0 H).
Defined.

(** C10.  For every choice of constructor arguments, constructing a
    [CategoricalActorCritic] fails.  The forward pass of the parent
    constructor dispatches to the overriding [call], whose first attribute
    read, [self._compute_feature], raises an [AttributeError]; the only
    other outcome is the [ValueError] of an unknown hidden activation, raised
    before the forward pass.  None of [_compute_feature], [prob] and [dist]
    is defined by a class of the hierarchy. *)
Theorem CategoricalActorCritic_construct_raises a g :
  raises (construct CategoricalActorCritic a g) /\
  (construct CategoricalActorCritic a g = Raise (AttributeError "_compute_feature") \/
   (units_arg a <> [] /\ raises (activations_get (hidden_activation a)))) /\
  resolve CategoricalActorCritic "call" = Some CategoricalActorCritic /\
  Forall (fun name => resolve CategoricalActorCritic name = None)
    ["_compute_feature"; "prob"; "dist"].
Proof.
  split; [|split; [|split]].
  - destruct (critic_construct_cases a g) as [H|(_ & _ & H)]; [|exact H].
    rewrite H. eexists; reflexivity.
  - destruct (critic_construct_cases a g) as [H|(H1 & H2 & _)]; [left|right]; auto.
  - reflexivity.
  - repeat constructor.
Qed.

(** * Further properties of the code *)

(** ** States of another width *)

Lemma forallb_width_false (d : nat) (x : matrix) :
  ~ Forall (fun r => length r = d) x ->
  forallb (fun r => Nat.eqb (length r) d) x = false.
Proof.
  intros H. destruct (forallb (fun r => Nat.eqb (length r) d) x) eqn:E; [|reflexivity].
  exfalso. apply H. rewrite forallb_forall in E. apply Forall_forall.
  intros r Hr. apply Nat.eqb_eq, E, list_elem_of_In, Hr.
Qed.

Lemma Dense_apply_invalid d l x :
  built_for d l ->
  ~ Forall (fun r => length r = d) x ->
  Dense_apply l x = Raise (ValueError "Input is incompatible with the layer").
Proof.
  intros (k & b & Hw & Hk) Hx. unfold Dense_apply. rewrite Hw. subst d.
  rewrite (forallb_width_false _ _ Hx). reflexivity.
Qed.

Lemma network_invalid a ls lo states :
  architecture a ls lo ->
  ~ valid_states a states ->
  network ls lo states = Raise (ValueError "Input is incompatible with the layer").
Proof.
  intros (_ & _ & Hb & _ & _ & Hlo) Hs. unfold network.
  destruct ls as [|l ls].
  - simpl. exact (Dense_apply_invalid _ lo states Hlo Hs).
  - destruct Hb as [Hl _]. simpl.
    rewrite (Dense_apply_invalid _ l states Hl Hs). reflexivity.
Qed.

(** X4.  For every actor, a batch in which some state has not the width
    the actor was constructed for is rejected by the first layer: the
    forward pass, and with it [call] (sampled or not), [compute_entropy],
    [compute_prob] and [compute_log_probs], raise the [ValueError] of the
    layer. *)
Theorem methods_reject_other_widths a o g states test actions :
  CategoricalActor_instance a o ->
  ~ valid_states a states ->
  let e := ValueError "Input is incompatible with the layer" in
  CategoricalActor_compute_dist states (mkWorld o g) = Raise e /\
  CategoricalActor_call states test (mkWorld o g) = Raise e /\
  CategoricalActor_compute_entropy states (mkWorld o g) = Raise e /\
  CategoricalActor_compute_prob states (mkWorld o g) = Raise e /\
  CategoricalActor_compute_log_probs states actions (mkWorld o g) = Raise e.
Proof.
  intros Hi Hs e. apply instance_is_actor in Hi.
  destruct (actor_compute_dist a o states g Hi) as (ls & lo & _ & _ & Harch & Hself & Hd).
  rewrite (network_invalid a ls lo states Harch Hs) in Hd.
  rewrite Hd in Hself. split; [exact Hd|].
  split; [unfold CategoricalActor_call, bind; rewrite Hself; reflexivity|].
  split; [unfold CategoricalActor_compute_entropy, bind; rewrite Hself; reflexivity|].
  split; [unfold CategoricalActor_compute_prob, bind; rewrite Hself; reflexivity|].
  unfold CategoricalActor_compute_log_probs. unfold bind at 1. rewrite Hself. reflexivity.
Qed.

Lemma methods_reject_other_widths_witness :
  CategoricalActor_instance args0 actor0 /\
  ~ valid_states args0 [[0%R; 0%R]] /\
  let e := ValueError "Input is incompatible with the layer" in
  CategoricalActor_compute_dist [[0%R; 0%R]] (mkWorld actor0 g_zero) = Raise e /\
  CategoricalActor_call [[0%R; 0%R]] false (mkWorld actor0 g_zero) = Raise e /\
  CategoricalActor_compute_entropy [[0%R; 0%R]] (mkWorld actor0 g_zero) = Raise e /\
  CategoricalActor_compute_prob [[0%R; 0%R]] (mkWorld actor0 g_zero) = Raise e /\
  CategoricalActor_compute_log_probs [[0%R; 0%R]] [0] (mkWorld actor0 g_zero) = Raise e.
Proof.
  assert (H : ~ valid_states args0 [[0%R; 0%R]]).
  { intros Hv. inversion Hv as [|? ? Hlen _]. discriminate Hlen. }
  split; [exact actor0_instance|]. split; [exact H|].
  exact (methods_reject_other_widths args0 actor0 g_zero [[0%R; 0%R]] false [0]
           actor0_instance H).
Defined.

(** ** The constructor of [CategoricalActor] *)

(** X6.  [CategoricalActor.__init__]: with a positive [action_dim],
    positive layer widths and a hidden activation among relu, linear, tanh,
    sigmoid and softmax (or no hidden layer at all, in which case the
    activation is never looked up), construction succeeds.  The instance
    stores [action_dim], one hidden layer per entry of [units] in
    [base_layers] and the softmax layer of width [action_dim] in
    [out_prob]; every layer is built, for the width that the layer before
    it produces. *)
Theorem construct_CategoricalActor_succeeds a g :
  0 < action_dim a ->
  Forall (fun u => 0 < u) (units_arg a) ->
  units_arg a = [] \/ returns (activations_get (hidden_activation a)) ->
  exists w,
    construct CategoricalActor a g = Ok w /\
    cls (self w) = CategoricalActor /\
    attrs (self w) !! "action_dim" = Some (VInt (action_dim a)) /\
    exists base_layers out_prob,
      attrs (self w) !! "base_layers" = Some (VLayers base_layers) /\
      attrs (self w) !! "out_prob" = Some (VDense out_prob) /\
      architecture a base_layers out_prob.
Proof.
  intros HK _ Hact.
  destruct (construct_CategoricalActor_returns a g HK Hact) as (w & Hw & Ho).
  exists w. split; [exact Hw|]. split; [exact (inv_cls a _ Ho)|].
  split; [exact (inv_action_dim a _ Ho)|exact (inv_network a _ Ho)].
Qed.

Lemma construct_CategoricalActor_succeeds_witness :
  exists w,
    construct CategoricalActor (default_args 4 3) g_zero = Ok w /\
    cls (self w) = CategoricalActor /\
    attrs (self w) !! "action_dim" = Some (VInt (action_dim (default_args 4 3))) /\
    exists base_layers out_prob,
      attrs (self w) !! "base_layers" = Some (VLayers base_layers) /\
      attrs (self w) !! "out_prob" = Some (VDense out_prob) /\
      architecture (default_args 4 3) base_layers out_prob.
Proof.
  apply (construct_CategoricalActor_succeeds (default_args 4 3) g_zero).
  - simpl. lia.
  - simpl. repeat constructor.
  - right. eexists. reflexivity.
Defined.

(** X7.  [CategoricalActor.__init__]: with [action_dim = 0] construction
    fails, whatever the other arguments: no actor without actions exists. *)
Theorem construct_CategoricalActor_no_actions a g :
  action_dim a = 0 ->
  raises (construct CategoricalActor a g).
Proof.
  intros HK.
  destruct (construct_CategoricalActor_cases a g)
    as [(_ & _ & H)|[(_ & H)|(Hpos & _)]]; [exact H|exact H|lia].
Qed.

Lemma construct_CategoricalActor_no_actions_witness :
  raises (construct CategoricalActor (mkArgs 1 0 [] "relu" "CategoricalActor") g_zero).
Proof.
  exact (construct_CategoricalActor_no_actions
           (mkArgs 1 0 [] "relu" "CategoricalActor") g_zero eq_refl).
Defined.
